(** * The content-validator agent tool ([foundry-agent-tool.py])

    A shallow embedding of [validate_content_tool]: the function writes the
    content to a temporary file, runs the node validator on it, and turns
    the exit status and the emoji-tagged lines of the captured output into
    a result dictionary.

    Python strings are sequences of Unicode code points, so a [str] is a
    list of code points; every marker glyph of the source is one code
    point.  Dictionaries keep their keys in insertion order and are
    association lists. *)

From Stdlib Require Import Strings.String Strings.Ascii.
From Stdlib Require Import Numbers.DecimalString.
From Stdlib Require Import List NArith ZArith Bool Lia.
Import ListNotations.

Set Warnings "-register-all".

(** ** Python strings *)

Module Py.

Definition str := list N.

(** An ASCII literal of the source as a [str]. *)
Definition lit (s : string) : str := map N_of_ascii (list_ascii_of_string s).

Fixpoint str_eqb (a b : str) : bool :=
  match a, b with
  | [], [] => true
  | x :: a', y :: b' => N.eqb x y && str_eqb a' b'
  | _, _ => false
  end.

Fixpoint startswith (prefix s : str) : bool :=
  match prefix, s with
  | [], _ => true
  | _ :: _, [] => false
  | a :: prefix', b :: s' => N.eqb a b && startswith prefix' s'
  end.

(** [sub in s] *)
Fixpoint contains (sub s : str) : bool :=
  startswith sub s ||
  match s with
  | [] => false
  | _ :: s' => contains sub s'
  end.

(** [s.replace(old, new)] for a non-empty [old]: leftmost non-overlapping
    occurrences, scanning left to right; [skip] counts the characters of a
    matched occurrence that are still to be passed over. *)
Fixpoint replace_from (old new : str) (skip : nat) (s : str) : str :=
  match s with
  | [] => []
  | c :: s' =>
      match skip with
      | S k => replace_from old new k s'
      | O =>
          if startswith old s
          then new ++ replace_from old new (length old - 1) s'
          else c :: replace_from old new 0 s'
      end
  end.

(** [s.replace(old, new)]; an empty [old] matches before every character
    and at the end. *)
Definition replace (old new s : str) : str :=
  match old with
  | [] => new ++ flat_map (fun c => c :: new) s
  | _ :: _ => replace_from old new 0 s
  end.

(** [s.split(sep)] for a non-empty [sep] (Python raises [ValueError] on an
    empty one; the tool only splits on a newline).  The head of the result
    is the field being read. *)
Fixpoint split_from (sep : str) (skip : nat) (s : str) : list str :=
  match s with
  | [] => [[]]
  | c :: s' =>
      match skip with
      | S k => split_from sep k s'
      | O =>
          if startswith sep s
          then [] :: split_from sep (length sep - 1) s'
          else
            match split_from sep 0 s' with
            | field :: fields => (c :: field) :: fields
            | [] => [[c]]
            end
      end
  end.

Definition split (sep s : str) : list str := split_from sep 0 s.


(** [str.isspace] on one character: the code points CPython's
    [Py_UNICODE_ISSPACE] accepts. *)
Definition isspace (c : N) : bool :=
  ((9 <=? c) && (c <=? 13) || (28 <=? c) && (c <=? 32) ||
   (c =? 133) || (c =? 160) || (c =? 5760) ||
   (8192 <=? c) && (c <=? 8202) ||
   (c =? 8232) || (c =? 8233) || (c =? 8239) || (c =? 8287) ||
   (c =? 12288))%N.

Fixpoint lstrip (s : str) : str :=
  match s with
  | [] => []
  | c :: s' => if isspace c then lstrip s' else s
  end.

Definition rstrip (s : str) : str := rev (lstrip (rev s)).

(** [s.strip()] *)
Definition strip (s : str) : str := rstrip (lstrip s).

(** [str(n)] for a non-negative [int] *)
Definition str_of_nat (n : nat) : str :=
  lit (NilZero.string_of_uint (Nat.to_uint n)).

(** [enumerate(l)] *)
Fixpoint enumerate_from {A : Type} (i : nat) (l : list A) : list (nat * A) :=
  match l with
  | [] => []
  | x :: l' => (i, x) :: enumerate_from (S i) l'
  end.

Definition enumerate {A : Type} (l : list A) : list (nat * A) :=
  enumerate_from 0 l.

(** The Python values the tool builds. *)
Inductive value : Type :=
| VNone
| VStr (s : str)
| VList (items : list value)
| VDict (entries : list (str * value)).

Fixpoint assoc (key : str) (entries : list (str * value)) : option value :=
  match entries with
  | [] => None
  | (k, v) :: rest => if str_eqb k key then Some v else assoc key rest
  end.

(** [d.get(key)], with [None] of Rocq for an absent key. *)
Definition get (key : str) (d : value) : option value :=
  match d with
  | VDict entries => assoc key entries
  | _ => None
  end.

End Py.

Import Py.

(** ** The tool *)

(** The glyphs of the source, each a single code point. *)
Definition red_circle : str := [0x1F534%N].
Definition yellow_circle : str := [0x1F7E1%N].
Definition blue_circle : str := [0x1F535%N].
Definition orange_circle : str := [0x1F7E0%N].
Definition light_bulb : str := [0x1F4A1%N].
Definition check_mark : str := [0x2705%N].
Definition cross_mark : str := [0x274C%N].
Definition newline : str := [10%N].

(** What [subprocess.run(..., capture_output=True, text=True)] returns. *)
Record CompletedProcess : Type := {
  returncode : Z;
  stdout : str;
  stderr : str
}.

Inductive exn : Type :=
| OSError (msg : str).

(** The part of the operating system the tool touches: the files (path and
    content), the name [NamedTemporaryFile] picks, the directory of the
    module, and what running a command in a directory over the files
    gives, a completed process or the exception of a failed launch. *)
Record OS : Type := {
  files : list (str * str);
  temp_name : str;
  module_dir : str;
  subprocess_run :
    list str -> str -> list (str * str) -> exn + CompletedProcess
}.

Definition unlink (path : str) (fs : list (str * str)) : list (str * str) :=
  filter (fun entry => negb (str_eqb (fst entry) path)) fs.

(** The condition of the [if] in the loop. *)
Definition has_marker (line : str) : bool :=
  contains red_circle line || contains yellow_circle line ||
  contains blue_circle line || contains orange_circle line.

(** The conditional expression bound to [severity]. *)
Definition severity_of (line : str) : str :=
  if contains red_circle line then lit "critical"
  else if contains yellow_circle line then lit "high"
  else if contains blue_circle line then lit "medium"
  else lit "low".

Definition message_of (line : str) : str :=
  strip
    (replace orange_circle []
       (replace blue_circle []
          (replace yellow_circle []
             (replace red_circle [] line)))).

(** [lines[i+1]]; the tool reads it only under [i+1 < len(lines)]. *)
Definition line_at (lines : list str) (i : nat) : str := nth i lines [].

Definition suggestion_of (lines : list str) (i : nat) : value :=
  if (i + 1 <? length lines) && contains light_bulb (line_at lines (i + 1))
  then VStr (strip (replace light_bulb [] (line_at lines (i + 1))))
  else VNone.

(** The dictionary appended for the line [line] at index [i]. *)
Definition issue_of (lines : list str) (i : nat) (line : str) : value :=
  VDict [ (lit "severity", VStr (severity_of line));
          (lit "message", VStr (message_of line));
          (lit "suggestion", suggestion_of lines i) ].

(** One iteration of [for i, line in enumerate(lines)]. *)
Definition loop_body (lines : list str) (issues : list value)
    (entry : nat * str) : list value :=
  let (i, line) := entry in
  if has_marker line then issues ++ [issue_of lines i line] else issues.

Definition extract_issues (lines : list str) : list value :=
  fold_left (loop_body lines) (enumerate lines) [].

(** The body of the [try] after the subprocess has returned. *)
Definition report (result : CompletedProcess) : value :=
  let output := stdout result ++ stderr result in
  if (returncode result =? 0)%Z then
    VDict [ (lit "status", VStr (lit "pass"));
            (lit "issues", VList []);
            (lit "message",
             VStr (check_mark ++ lit " No validation issues found")) ]
  else
    let issues := extract_issues (split newline output) in
    VDict [ (lit "status", VStr (lit "fail"));
            (lit "issues", VList issues);
            (lit "message",
             VStr (cross_mark ++ lit " Found " ++ str_of_nat (length issues)
                   ++ lit " validation issue(s)")) ].

Definition script : str := lit ".github/scripts/validate-file.js".

(** What the subprocess call of an invocation on [content] returns. *)
Definition observed (content : str) (os : OS) : exn + CompletedProcess :=
  subprocess_run os [lit "node"; script; temp_name os] (module_dir os)
    ((temp_name os, content) :: files os).

(** [validate_content_tool(content, filename)]: the returned dictionary or
    the exception raised, and the files left behind; the [finally] clause
    unlinks the temporary file on both paths.  The embedding covers the
    invocations in which creating, writing and unlinking the temporary
    file succeed and the subprocess leaves the files alone: a write that
    raises (it stands before the [try]) or an unlink that raises gives no
    result dictionary, and nothing below is stated about the files. *)
Definition validate_content_tool (content filename : str) (os : OS)
    : (exn + value) * list (str * str) :=
  let temp_path := temp_name os in
  let written := (temp_path, content) :: files os in
  let outcome :=
    match
      subprocess_run os [lit "node"; script; temp_path] (module_dir os)
        written
    with
    | inl e => inl e
    | inr result => inr (report result)
    end in
  (outcome, unlink temp_path written).

(** ** Vocabulary of the statements *)

(** The returned dictionary, or the exception, of an invocation. *)
Definition returned (content filename : str) (os : OS) : exn + value :=
  fst (validate_content_tool content filename os).

(** The list under the key [issues] of a result. *)
Definition issues_of (r : value) : list value :=
  match get (lit "issues") r with
  | Some (VList items) => items
  | _ => []
  end.

(** The lines the tool splits the captured output into. *)
Definition output_lines (result : CompletedProcess) : list str :=
  split newline (stdout result ++ stderr result).

(** The marker lines of the output with their positions, top to bottom. *)
Definition marker_lines (lines : list str) : list (nat * str) :=
  filter (fun entry => has_marker (snd entry)) (enumerate lines).


(** The four severity markers as an enumeration, the glyph of each, its
    place in the order the conditional expression tests them, and the
    severity the specification pairs it with. *)
Inductive marker : Type := Red | Yellow | Blue | Orange.

Definition glyph (m : marker) : str :=
  match m with
  | Red => red_circle
  | Yellow => yellow_circle
  | Blue => blue_circle
  | Orange => orange_circle
  end.

Definition rank (m : marker) : nat :=
  match m with
  | Red => 0
  | Yellow => 1
  | Blue => 2
  | Orange => 3
  end.

Definition severity_label (m : marker) : str :=
  match m with
  | Red => lit "critical"
  | Yellow => lit "high"
  | Blue => lit "medium"
  | Orange => lit "low"
  end.

(** Whether a character is one of the four marker glyphs. *)
Definition is_marker_char (c : N) : bool :=
  (0x1F534 =? c)%N || (0x1F7E1 =? c)%N || (0x1F535 =? c)%N ||
  (0x1F7E0 =? c)%N.

(** [line] carries the marker [m] and no other. *)
Definition only_marker (m : marker) (line : str) : Prop :=
  contains (glyph m) line = true /\
  forall m', m' <> m -> contains (glyph m') line = false.

(** The two dictionaries the tool can return. *)
Definition pass_report : value :=
  VDict [ (lit "status", VStr (lit "pass"));
          (lit "issues", VList []);
          (lit "message",
           VStr (check_mark ++ lit " No validation issues found")) ].

Definition findings_report (issues : list value) : value :=
  VDict [ (lit "status", VStr (lit "fail"));
          (lit "issues", VList issues);
          (lit "message",
           VStr (cross_mark ++ lit " Found " ++ str_of_nat (length issues)
                 ++ lit " validation issue(s)")) ].

(** A result has the shape of a findings report. *)
Definition findings_shaped (r : value) : Prop :=
  exists issues, r = findings_report issues.

(** The reading of the three-way requirement for a class of outcomes in
    which the validator could not run: none of them is reported as a pass
    or as a findings report. *)
Definition reported_apart (could_not_run : CompletedProcess -> Prop)
    : Prop :=
  forall result,
    could_not_run result ->
    report result <> pass_report /\ ~ findings_shaped (report result).

(** *** Sample environments *)

(** An operating system whose subprocess call always gives [outcome]. *)
Definition os_giving (outcome : exn + CompletedProcess) : OS :=
  {| files := [];
     temp_name := lit "/tmp/tmpq7x2.md";
     module_dir := lit "/app";
     subprocess_run := fun _ _ _ => outcome |}.

(** A stand-in for the node validator: it reads the file named last on
    the command line and flags the placeholder TODO. *)
Definition toy_validator (argv : list str) (cwd : str)
    (fs : list (str * str)) : exn + CompletedProcess :=
  match argv with
  | [_; _; path] =>
      match find (fun entry => str_eqb (fst entry) path) fs with
      | Some (_, content) =>
          if contains (lit "TODO") content
          then inr {| returncode := 1;
                      stdout := orange_circle
                                ++ lit " Placeholder text found: TODO"
                                ++ newline;
                      stderr := [] |}
          else inr {| returncode := 0; stdout := []; stderr := [] |}
      | None =>
          inr {| returncode := 1; stdout := [];
                 stderr := lit "Error: ENOENT" |}
      end
  | _ => inl (OSError (lit "usage"))
  end.

Definition toy_os : OS :=
  {| files := [(lit "/app/README.md", lit "hello")];
     temp_name := lit "/tmp/tmpq7x2.md";
     module_dir := lit "/app";
     subprocess_run := toy_validator |}.

(** node exits with status 1 and this on stderr when the script is not
    where the command line says. *)
Definition script_missing : CompletedProcess :=
  {| returncode := 1;
     stdout := [];
     stderr := lit "Error: Cannot find module '/app/.github/scripts/validate-file.js'"
               ++ newline |}.

(** A findings run: one spelling finding with its suggestion, one
    placeholder finding without. *)
Definition two_findings : CompletedProcess :=
  {| returncode := 1;
     stdout := red_circle ++ lit " Spelling: recieve" ++ newline
               ++ light_bulb ++ lit " receive" ++ newline
               ++ orange_circle ++ lit " Placeholder: TODO" ++ newline;
     stderr := [] |}.

(** A complete run that found one issue, and a run that printed the same
    finding and then died of an uncaught exception. *)
Definition one_finding : CompletedProcess :=
  {| returncode := 1;
     stdout := red_circle ++ lit " Spelling: recieve" ++ newline;
     stderr := [] |}.

Definition crashed_after_one : CompletedProcess :=
  {| returncode := 1;
     stdout := red_circle ++ lit " Spelling: recieve" ++ newline;
     stderr := lit "TypeError: Cannot read properties of undefined" |}.

(** A finding followed by a line that carries both the light bulb and a
    severity marker. *)
Definition marked_suggestion : CompletedProcess :=
  {| returncode := 1;
     stdout := red_circle ++ lit " Spelling: recieve" ++ newline
               ++ light_bulb ++ lit " receive " ++ yellow_circle
               ++ lit " twice" ++ newline;
     stderr := [] |}.

(** A non-zero exit whose output has no marker line. *)
Definition silent_failure : CompletedProcess :=
  {| returncode := 1; stdout := []; stderr := [] |}.

(** ** Facts about the string primitives *)

Section StringFacts.

Lemma str_eqb_eq (a b : str) : str_eqb a b = true <-> a = b.
Proof.
  revert b; induction a as [|x a IH]; intros [|y b]; simpl;
    try (split; [discriminate | discriminate]); [tauto |].
  rewrite andb_true_iff, N.eqb_eq, IH.
  split; [intros [-> ->]; reflexivity | intros E; injection E; auto].
Qed.

(** A one-character pattern occurs in [s] exactly when the character does. *)
Lemma contains_char (c : N) (s : str) :
  contains [c] s = existsb (N.eqb c) s.
Proof.
  induction s as [|x s IH]; simpl; [reflexivity |].
  rewrite IH, andb_true_r; reflexivity.
Qed.

Lemma contains_char_In (c : N) (s : str) :
  contains [c] s = true <-> In c s.
Proof.
  rewrite contains_char, existsb_exists; split.
  - intros [x [Hin Heq]]. apply N.eqb_eq in Heq. subst; assumption.
  - intros Hin. exists c. split; [assumption | apply N.eqb_refl].
Qed.

Lemma contains_char_false (c : N) (s : str) :
  contains [c] s = false <-> ~ In c s.
Proof.
  rewrite <- contains_char_In. destruct (contains [c] s); split;
    congruence.
Qed.

(** Replacing a one-character pattern by the empty string deletes every
    occurrence of the character and nothing else. *)
Lemma replace_char_empty (c : N) (s : str) :
  replace [c] [] s = filter (fun x => negb (N.eqb c x)) s.
Proof.
  unfold replace.
  induction s as [|x s IH]; simpl; [reflexivity |].
  rewrite andb_true_r.
  destruct (N.eqb c x); simpl; rewrite IH; reflexivity.
Qed.

Lemma lstrip_incl (s : str) (x : N) : In x (lstrip s) -> In x s.
Proof.
  induction s as [|c s IH]; simpl; [tauto |].
  destruct (isspace c); simpl; tauto.
Qed.

Lemma strip_incl (s : str) (x : N) : In x (strip s) -> In x s.
Proof.
  unfold strip, rstrip. intros H.
  apply in_rev in H. apply lstrip_incl in H. apply in_rev in H.
  apply lstrip_incl; assumption.
Qed.

(** [split] on one character and [join] are inverse, and no field holds
    the separator. *)
Lemma split_char_nonempty (c : N) (s : str) : split [c] s <> [].
Proof.
  unfold split. destruct s as [|x s]; simpl; [discriminate |].
  rewrite andb_true_r. destruct (N.eqb c x); [discriminate |].
  destruct (split_from [c] 0 s); discriminate.
Qed.


Lemma split_char_fields (c : N) (s field : str) :
  In field (split [c] s) -> ~ In c field.
Proof.
  unfold split. revert field.
  induction s as [|x s IH]; intros field; simpl.
  - intros [<- | []]; simpl; tauto.
  - rewrite andb_true_r. destruct (N.eqb c x) eqn:E.
    + simpl. intros [<- | H]; [simpl; tauto | apply IH; assumption].
    + destruct (split_from [c] 0 s) as [|f fs] eqn:Es.
      * intros [<- | []]. simpl. apply N.eqb_neq in E. intuition.
      * intros [<- | H].
        -- simpl. apply N.eqb_neq in E. intros [E' | Hin]; [congruence |].
           apply (IH f); [left; reflexivity | assumption].
        -- apply IH. right; assumption.
Qed.

End StringFacts.

(** ** The loop as a filter *)

Section Loop.

Lemma enumerate_from_nth (A : Type) (l : list A) (k j : nat) :
  nth_error (enumerate_from k l) j
  = option_map (fun x => (k + j, x)) (nth_error l j).
Proof.
  revert k j; induction l as [|x l IH]; intros k [|j]; simpl;
    try reflexivity.
  - rewrite Nat.add_0_r; reflexivity.
  - rewrite IH. rewrite <- plus_n_Sm. reflexivity.
Qed.

Lemma enumerate_from_In (A : Type) (l : list A) (k i : nat) (x : A) :
  In (i, x) (enumerate_from k l)
  <-> k <= i /\ nth_error l (i - k) = Some x.
Proof.
  revert k; induction l as [|y l IH]; intros k; simpl.
  - split; [tauto | intros [_ H]; destruct (i - k); discriminate].
  - rewrite IH. split.
    + intros [E | [Hle Hn]].
      * injection E as -> ->. rewrite Nat.sub_diag. split; [lia | reflexivity].
      * split; [lia |]. replace (i - k) with (S (i - S k)) by lia.
        exact Hn.
    + intros [Hle Hn]. destruct (i - k) as [|d] eqn:Ed.
      * left. simpl in Hn. injection Hn as ->. f_equal; lia.
      * right. split; [lia |]. simpl in Hn.
        replace (i - S k) with d by lia. exact Hn.
Qed.

Lemma enumerate_In (A : Type) (l : list A) (i : nat) (x : A) :
  In (i, x) (enumerate l) <-> nth_error l i = Some x.
Proof.
  unfold enumerate. rewrite enumerate_from_In, Nat.sub_0_r.
  split; [tauto | split; [lia | assumption]].
Qed.





Lemma loop_body_fold (lines : list str) (entries : list (nat * str))
    (issues : list value) :
  fold_left (loop_body lines) entries issues
  = issues ++ map (fun entry => issue_of lines (fst entry) (snd entry))
                  (filter (fun entry => has_marker (snd entry)) entries).
Proof.
  revert issues; induction entries as [|[i line] entries IH];
    intros issues; simpl.
  - rewrite app_nil_r; reflexivity.
  - rewrite IH. destruct (has_marker line); simpl; [| reflexivity].
    rewrite <- app_assoc. reflexivity.
Qed.

Lemma extract_issues_marker_lines (lines : list str) :
  extract_issues lines
  = map (fun entry => issue_of lines (fst entry) (snd entry))
        (marker_lines lines).
Proof.
  unfold extract_issues. rewrite loop_body_fold. reflexivity.
Qed.

Lemma marker_lines_In (lines : list str) (i : nat) (line : str) :
  In (i, line) (marker_lines lines)
  <-> nth_error lines i = Some line /\ has_marker line = true.
Proof.
  unfold marker_lines. rewrite filter_In, enumerate_In. reflexivity.
Qed.


End Loop.

(** ** The result of an invocation *)

Section Report.

Lemma returned_observed (content filename : str) (os : OS) :
  returned content filename os
  = match observed content os with
    | inl e => inl e
    | inr result => inr (report result)
    end.
Proof. reflexivity. Qed.

Lemma report_cases (result : CompletedProcess) :
  report result
  = if (returncode result =? 0)%Z then pass_report
    else findings_report (extract_issues (output_lines result)).
Proof.
  unfold report. destruct (returncode result =? 0)%Z; reflexivity.
Qed.

Lemma issues_of_findings (issues : list value) :
  issues_of (findings_report issues) = issues.
Proof. reflexivity. Qed.

Lemma issues_of_report (result : CompletedProcess) :
  issues_of (report result)
  = if (returncode result =? 0)%Z then []
    else map (fun entry =>
                issue_of (output_lines result) (fst entry) (snd entry))
             (marker_lines (output_lines result)).
Proof.
  rewrite report_cases. destruct (returncode result =? 0)%Z.
  - reflexivity.
  - rewrite issues_of_findings. apply extract_issues_marker_lines.
Qed.

Lemma status_of_report (result : CompletedProcess) :
  get (lit "status") (report result)
  = Some (VStr (if (returncode result =? 0)%Z then lit "pass"
                else lit "fail")).
Proof.
  rewrite report_cases. destruct (returncode result =? 0)%Z; reflexivity.
Qed.

(** The issue of every marker line is in the report of a non-zero exit. *)
Lemma marker_line_reported (result : CompletedProcess) (i : nat)
    (line : str) :
  returncode result <> 0%Z ->
  In (i, line) (marker_lines (output_lines result)) ->
  In (issue_of (output_lines result) i line) (issues_of (report result)).
Proof.
  intros Hrc Hin. rewrite issues_of_report.
  apply Z.eqb_neq in Hrc. rewrite Hrc.
  apply (in_map (fun entry =>
                   issue_of (output_lines result) (fst entry) (snd entry))
           _ _ Hin).
Qed.

(** Every reported issue comes from a marker line. *)
Lemma reported_issue_origin (result : CompletedProcess) (issue : value) :
  In issue (issues_of (report result)) ->
  returncode result <> 0%Z /\
  exists i line,
    In (i, line) (marker_lines (output_lines result)) /\
    issue = issue_of (output_lines result) i line.
Proof.
  rewrite issues_of_report.
  destruct (returncode result =? 0)%Z eqn:Hrc; [intros [] |].
  intros Hin. apply in_map_iff in Hin. destruct Hin as [[i line] [<- Hin]].
  split; [apply Z.eqb_neq; assumption |].
  exists i, line. split; [assumption | reflexivity].
Qed.

Lemma suggestion_of_next (lines : list str) (i : nat) :
  suggestion_of lines i
  = match nth_error lines (i + 1) with
    | Some next =>
        if contains light_bulb next
        then VStr (strip (replace light_bulb [] next))
        else VNone
    | None => VNone
    end.
Proof.
  unfold suggestion_of, line_at.
  destruct (nth_error lines (i + 1)) as [next|] eqn:E.
  - assert (Hlt : i + 1 < length lines)
      by (apply nth_error_Some; congruence).
    apply Nat.ltb_lt in Hlt. rewrite Hlt.
    rewrite (@nth_error_nth str lines (i + 1) next [] E). reflexivity.
  - apply nth_error_None in E.
    assert (Hge : (i + 1 <? length lines) = false)
      by (apply Nat.ltb_ge; assumption).
    rewrite Hge. reflexivity.
Qed.

End Report.

(** ** Status and issues *)

Section Status.

(** C1.  In every invocation whose validator subprocess exits, exit status
    0 gives a result with status "pass" and an empty issues list, and any
    non-zero exit status gives a result with status "fail". *)
Theorem exit_status_decides_status
    (content filename : str) (os : OS) (result : CompletedProcess) :
  observed content os = inr result ->
  (returncode result = 0%Z ->
   exists r, returned content filename os = inr r /\
             get (lit "status") r = Some (VStr (lit "pass")) /\
             get (lit "issues") r = Some (VList [])) /\
  (returncode result <> 0%Z ->
   exists r, returned content filename os = inr r /\
             get (lit "status") r = Some (VStr (lit "fail"))).
Proof.
  intros Hobs. rewrite returned_observed, Hobs. split; intros Hrc.
  - exists (report result). split; [reflexivity |].
    rewrite report_cases, Hrc. split; reflexivity.
  - exists (report result). split; [reflexivity |].
    rewrite status_of_report.
    apply Z.eqb_neq in Hrc. rewrite Hrc. reflexivity.
Qed.

Lemma exit_status_decides_status_witness :
  observed (lit "TODO: write this") toy_os
  = inr {| returncode := 1;
           stdout := orange_circle ++ lit " Placeholder text found: TODO"
                     ++ newline;
           stderr := [] |} /\
  exists r,
    returned (lit "TODO: write this") (lit "content.md") toy_os = inr r /\
    get (lit "status") r = Some (VStr (lit "fail")).
Proof.
  split; [reflexivity |].
  apply (exit_status_decides_status (lit "TODO: write this")
           (lit "content.md") toy_os
           {| returncode := 1;
              stdout := orange_circle ++ lit " Placeholder text found: TODO"
                        ++ newline;
              stderr := [] |});
    [reflexivity | discriminate].
Defined.

(** C2 as stated fails: a non-zero exit whose output has no marker line is
    reported with status "fail" and an empty issues list. *)
Lemma fail_with_no_issues :
  exists r,
    returned (lit "fine text") (lit "content.md")
      (os_giving (inr silent_failure)) = inr r /\
    ~ (get (lit "status") r = Some (VStr (lit "fail"))
       <-> issues_of r <> []).
Proof.
  exists (report silent_failure). split; [reflexivity |].
  intros [Hfail _]. apply Hfail; reflexivity.
Qed.

(** C2, amended.  In every invocation that returns a result, a non-empty
    issues sequence comes with status "fail" and status "pass" comes with
    an empty issues sequence; the status is "fail" exactly when the exit
    status is non-zero, whether or not any issue was parsed. *)
Theorem issues_imply_fail
    (content filename : str) (os : OS) (result : CompletedProcess) :
  observed content os = inr result ->
  exists r,
    returned content filename os = inr r /\
    (issues_of r <> [] -> get (lit "status") r = Some (VStr (lit "fail"))) /\
    (get (lit "status") r = Some (VStr (lit "pass")) -> issues_of r = []) /\
    (get (lit "status") r = Some (VStr (lit "fail"))
     <-> returncode result <> 0%Z).
Proof.
  intros Hobs. rewrite returned_observed, Hobs.
  exists (report result). split; [reflexivity |].
  rewrite status_of_report, issues_of_report.
  destruct (returncode result =? 0)%Z eqn:Hrc.
  - apply Z.eqb_eq in Hrc.
    repeat split; try congruence; try discriminate.
  - apply Z.eqb_neq in Hrc.
    repeat split; try congruence; try discriminate.
Qed.

Lemma issues_imply_fail_witness :
  observed (lit "x") (os_giving (inr two_findings)) = inr two_findings /\
  exists r,
    returned (lit "x") (lit "content.md") (os_giving (inr two_findings))
    = inr r /\
    (issues_of r <> [] -> get (lit "status") r = Some (VStr (lit "fail"))) /\
    (get (lit "status") r = Some (VStr (lit "pass")) -> issues_of r = []) /\
    (get (lit "status") r = Some (VStr (lit "fail"))
     <-> returncode two_findings <> 0%Z).
Proof.
  split; [reflexivity |].
  apply (issues_imply_fail (lit "x") (lit "content.md")
           (os_giving (inr two_findings)) two_findings).
  reflexivity.
Defined.

End Status.

(** ** Severity markers *)

Section Markers.

Lemma glyph_contains (m : marker) (line : str) :
  contains (glyph m) line = true -> has_marker line = true.
Proof.
  unfold has_marker. destruct m; simpl; intros ->;
    rewrite ?orb_true_r; reflexivity.
Qed.

(** The severity is the label of the first marker, in the order of the
    conditional expression, that the line carries. *)
Lemma severity_of_first (m : marker) (line : str) :
  contains (glyph m) line = true ->
  (forall m', contains (glyph m') line = true -> rank m <= rank m') ->
  severity_of line = severity_label m.
Proof.
  intros Hm Hfirst. unfold severity_of.
  assert (Hbefore : forall m', rank m' < rank m ->
                               contains (glyph m') line = false).
  { intros m' Hlt. destruct (contains (glyph m') line) eqn:E;
      [apply Hfirst in E; lia | reflexivity]. }
  pose proof (Hbefore Red) as HR. pose proof (Hbefore Yellow) as HY.
  pose proof (Hbefore Blue) as HB. clear Hbefore Hfirst.
  change (glyph Red) with red_circle in HR.
  change (glyph Yellow) with yellow_circle in HY.
  change (glyph Blue) with blue_circle in HB.
  destruct m; simpl in Hm, HR, HY, HB.
  - rewrite Hm. reflexivity.
  - rewrite HR, Hm by lia. reflexivity.
  - rewrite HR, HY, Hm by lia. reflexivity.
  - rewrite HR, HY, HB by lia. reflexivity.
Qed.

Lemma severity_label_injective (m m' : marker) :
  severity_label m = severity_label m' -> m = m'.
Proof.
  destruct m, m'; intros E; try reflexivity; vm_compute in E;
    discriminate.
Qed.

(** The four replacements together delete the marker characters. *)
Lemma markers_deleted (line : str) :
  replace orange_circle []
    (replace blue_circle []
       (replace yellow_circle [] (replace red_circle [] line)))
  = filter (fun c => negb (is_marker_char c)) line.
Proof.
  unfold orange_circle, blue_circle, yellow_circle, red_circle.
  rewrite !replace_char_empty. unfold is_marker_char.
  induction line as [|c line IH]; [reflexivity |].
  cbn [filter].
  destruct (N.eqb 0x1F534 c); cbn [negb orb filter]; [exact IH |].
  destruct (N.eqb 0x1F7E1 c); cbn [negb orb filter]; [exact IH |].
  destruct (N.eqb 0x1F535 c); cbn [negb orb filter]; [exact IH |].
  destruct (N.eqb 0x1F7E0 c); cbn [negb orb filter]; [exact IH |].
  rewrite IH. reflexivity.
Qed.

Lemma message_of_filter (line : str) :
  message_of line = strip (filter (fun c => negb (is_marker_char c)) line).
Proof. unfold message_of. rewrite markers_deleted. reflexivity. Qed.

Lemma glyph_is_marker_char (m : marker) :
  exists c, glyph m = [c] /\ is_marker_char c = true.
Proof. destruct m; eexists; split; reflexivity. Qed.

Lemma message_of_no_glyph (m : marker) (line : str) :
  contains (glyph m) (message_of line) = false.
Proof.
  destruct (glyph_is_marker_char m) as [c [-> Hc]].
  apply contains_char_false. intros Hin.
  rewrite message_of_filter in Hin. apply strip_incl in Hin.
  apply filter_In in Hin. destruct Hin as [_ Hkeep].
  rewrite Hc in Hkeep. discriminate.
Qed.

(** C3.  A line that carries exactly one of the four markers is parsed
    into an issue whose severity is the one paired with that marker (red
    critical, yellow high, blue medium, orange low), and lines with
    different single markers never get the same severity. *)
Theorem single_marker_severity
    (m : marker) (line : str) (lines : list str) (i : nat) :
  only_marker m line ->
  has_marker line = true /\
  get (lit "severity") (issue_of lines i line)
  = Some (VStr (severity_label m)) /\
  (forall m' line',
      only_marker m' line' -> m' <> m ->
      severity_of line' <> severity_of line).
Proof.
  assert (Honly : forall m0 line0,
             only_marker m0 line0 ->
             severity_of line0 = severity_label m0).
  { intros m0 line0 [Hhas Hnone]. apply severity_of_first; [assumption |].
    intros m' Hm'. destruct m0, m'; simpl; try lia;
      (rewrite Hnone in Hm' by discriminate; discriminate). }
  intros Hm. split; [apply (glyph_contains m), Hm |]. split.
  - simpl. rewrite (Honly m line Hm). reflexivity.
  - intros m' line' Hm' Hneq Heq.
    rewrite (Honly m line Hm), (Honly m' line' Hm') in Heq.
    apply severity_label_injective in Heq. contradiction.
Qed.

Lemma single_marker_severity_witness :
  only_marker Blue (blue_circle ++ lit " Honorific: mr") /\
  get (lit "severity")
    (issue_of [blue_circle ++ lit " Honorific: mr"] 0
       (blue_circle ++ lit " Honorific: mr"))
  = Some (VStr (lit "medium")).
Proof.
  assert (H : only_marker Blue (blue_circle ++ lit " Honorific: mr")).
  { split; [reflexivity |].
    intros m' Hneq. destruct m'; try reflexivity. contradiction. }
  split; [exact H |].
  exact (proj1 (proj2 (single_marker_severity Blue
                         (blue_circle ++ lit " Honorific: mr")
                         [blue_circle ++ lit " Honorific: mr"] 0 H))).
Defined.

(** C9.  On a line that carries several markers the severity is the one
    of the marker that comes first in the order red, yellow, blue, orange,
    and the message is the line with every occurrence of the four glyphs
    deleted, wherever it stands, and then stripped. *)
Theorem marker_precedence
    (m : marker) (line : str) (lines : list str) (i : nat) :
  contains (glyph m) line = true ->
  (forall m', contains (glyph m') line = true -> rank m <= rank m') ->
  get (lit "severity") (issue_of lines i line)
  = Some (VStr (severity_label m)) /\
  get (lit "message") (issue_of lines i line)
  = Some (VStr (strip (filter (fun c => negb (is_marker_char c)) line))) /\
  (forall m', contains (glyph m') (message_of line) = false) /\
  (forall c, In c (message_of line) -> is_marker_char c = false).
Proof.
  intros Hm Hfirst. repeat split.
  - simpl. rewrite (severity_of_first m line Hm Hfirst). reflexivity.
  - simpl. rewrite message_of_filter. reflexivity.
  - intros m'. apply message_of_no_glyph.
  - intros c Hin. rewrite message_of_filter in Hin.
    apply strip_incl in Hin. apply filter_In in Hin.
    destruct Hin as [_ Hkeep]. destruct (is_marker_char c);
      [discriminate | reflexivity].
Qed.

Lemma marker_precedence_witness :
  let line := lit " " ++ orange_circle ++ lit " see " ++ yellow_circle
              ++ lit " and " ++ blue_circle ++ lit " notes "
              ++ yellow_circle in
  contains (glyph Yellow) line = true /\
  get (lit "severity") (issue_of [line] 0 line) = Some (VStr (lit "high")) /\
  get (lit "message") (issue_of [line] 0 line)
  = Some (VStr (lit "see  and  notes")).
Proof.
  set (line := lit " " ++ orange_circle ++ lit " see " ++ yellow_circle
               ++ lit " and " ++ blue_circle ++ lit " notes "
               ++ yellow_circle).
  assert (Hfirst : forall m', contains (glyph m') line = true ->
                              rank Yellow <= rank m').
  { intros m'. destruct m'; simpl rank; try lia.
    vm_compute. discriminate. }
  split; [reflexivity |].
  destruct (marker_precedence Yellow line [line] 0 eq_refl Hfirst)
    as [Hsev [Hmsg _]].
  split; [exact Hsev | exact Hmsg].
Defined.

End Markers.

(** ** Suggestions *)

Section Suggestions.

Lemma issue_suggestion (lines : list str) (i : nat) (line : str) :
  get (lit "suggestion") (issue_of lines i line)
  = Some (suggestion_of lines i).
Proof. reflexivity. Qed.

(** C4.  The issue of a marker line at position [i] has a suggestion
    exactly when line [i+1] exists and carries the light bulb; the
    suggestion is then that line with the light bulb removed and the
    white space stripped; and the suggestion depends on no line other than
    line [i+1]. *)
Theorem suggestion_from_next_line
    (result : CompletedProcess) (i : nat) (line : str) :
  returncode result <> 0%Z ->
  In (i, line) (marker_lines (output_lines result)) ->
  let lines := output_lines result in
  let issue := issue_of lines i line in
  In issue (issues_of (report result)) /\
  (get (lit "suggestion") issue <> Some VNone
   <-> exists next, nth_error lines (i + 1) = Some next /\
                    contains light_bulb next = true) /\
  (forall next,
      nth_error lines (i + 1) = Some next ->
      contains light_bulb next = true ->
      get (lit "suggestion") issue
      = Some (VStr (strip (replace light_bulb [] next)))) /\
  (forall lines',
      nth_error lines' (i + 1) = nth_error lines (i + 1) ->
      get (lit "suggestion") (issue_of lines' i line)
      = get (lit "suggestion") issue).
Proof.
  intros Hrc Hin lines issue. subst issue.
  split; [apply marker_line_reported; assumption |].
  rewrite issue_suggestion, suggestion_of_next.
  split; [| split].
  - destruct (nth_error lines (i + 1)) as [next|] eqn:E.
    + destruct (contains light_bulb next) eqn:Hb; split.
      * intros _. exists next. split; [reflexivity | assumption].
      * intros _. discriminate.
      * intros H. contradiction H; reflexivity.
      * intros [next' [E' Hb']]. injection E' as <-. congruence.
    + split; [intros H; contradiction H; reflexivity |].
      intros [next [E' _]]. discriminate.
  - intros next E Hb. rewrite E, Hb. reflexivity.
  - intros lines' E. rewrite issue_suggestion, suggestion_of_next, E.
    reflexivity.
Qed.

Lemma suggestion_from_next_line_witness :
  returncode two_findings <> 0%Z /\
  In (0, red_circle ++ lit " Spelling: recieve")
    (marker_lines (output_lines two_findings)) /\
  get (lit "suggestion")
    (issue_of (output_lines two_findings) 0
       (red_circle ++ lit " Spelling: recieve"))
  = Some (VStr (lit "receive")).
Proof.
  assert (Hrc : returncode two_findings <> 0%Z) by discriminate.
  assert (Hin : In (0, red_circle ++ lit " Spelling: recieve")
                  (marker_lines (output_lines two_findings)))
    by (left; reflexivity).
  split; [exact Hrc |]. split; [exact Hin |].
  destruct (suggestion_from_next_line two_findings 0
              (red_circle ++ lit " Spelling: recieve") Hrc Hin)
    as [_ [_ [Hnext _]]].
  exact (Hnext (light_bulb ++ lit " receive") eq_refl eq_refl).
Defined.

(** C10.  Every issue of the report has the key [suggestion]; for a
    marker line that is not directly followed by a line carrying the light
    bulb the key is bound to [None]. *)
Theorem suggestion_key_always_present
    (result : CompletedProcess) (i : nat) (line : str) :
  returncode result <> 0%Z ->
  In (i, line) (marker_lines (output_lines result)) ->
  (forall next,
      nth_error (output_lines result) (i + 1) = Some next ->
      contains light_bulb next = false) ->
  In (issue_of (output_lines result) i line) (issues_of (report result)) /\
  get (lit "suggestion") (issue_of (output_lines result) i line)
  = Some VNone /\
  (forall issue,
      In issue (issues_of (report result)) ->
      exists v, get (lit "suggestion") issue = Some v).
Proof.
  intros Hrc Hin Hnext.
  split; [apply marker_line_reported; assumption |]. split.
  - rewrite issue_suggestion, suggestion_of_next.
    destruct (nth_error (output_lines result) (i + 1)) as [next|] eqn:E;
      [| reflexivity].
    rewrite (Hnext next eq_refl). reflexivity.
  - intros issue Hissue.
    apply reported_issue_origin in Hissue.
    destruct Hissue as [_ [j [line' [_ ->]]]].
    eexists. apply issue_suggestion.
Qed.

Lemma suggestion_key_always_present_witness :
  returncode two_findings <> 0%Z /\
  In (2, orange_circle ++ lit " Placeholder: TODO")
    (marker_lines (output_lines two_findings)) /\
  get (lit "suggestion")
    (issue_of (output_lines two_findings) 2
       (orange_circle ++ lit " Placeholder: TODO"))
  = Some VNone.
Proof.
  assert (Hrc : returncode two_findings <> 0%Z) by discriminate.
  assert (Hin : In (2, orange_circle ++ lit " Placeholder: TODO")
                  (marker_lines (output_lines two_findings)))
    by (right; left; reflexivity).
  split; [exact Hrc |]. split; [exact Hin |].
  refine (proj1 (proj2 (suggestion_key_always_present two_findings 2
                          (orange_circle ++ lit " Placeholder: TODO")
                          Hrc Hin _))).
  intros next E. vm_compute in E. injection E as <-. reflexivity.
Defined.

End Suggestions.

(** ** Order *)

Section Order.




End Order.

(** ** What the caller can tell apart *)

Section Outcomes.

(** C5 as stated fails: when node cannot find the validator script it
    exits with status 1 and an error on stderr, and the tool reports this
    as a findings report with zero issues; and a validator that dies after
    printing one finding is reported exactly as a complete run with one
    finding. *)
Lemma could_not_run_reported_as_findings :
  report script_missing = findings_report [] /\
  report crashed_after_one = report one_finding /\
  ~ reported_apart (fun result => result = script_missing).
Proof.
  split; [reflexivity |]. split; [reflexivity |].
  intros H. destruct (H script_missing eq_refl) as [_ Hshape].
  apply Hshape. exists []. reflexivity.
Qed.

(** C5, amended.  The result tells two cases apart, by the exit status
    alone: exit status 0 gives the pass report, and every non-zero exit
    status, whatever made the validator exit so, gives a findings report
    built from the marker lines of the output, with the number of parsed
    issues in its message.  The result depends on the exit status only
    through its being zero or not and on the two streams only through
    their concatenation. *)
Theorem exit_status_two_way
    (content filename : str) (os : OS) (result : CompletedProcess) :
  observed content os = inr result ->
  (returncode result = 0%Z ->
   returned content filename os = inr pass_report) /\
  (returncode result <> 0%Z ->
   returned content filename os
   = inr (findings_report (extract_issues (output_lines result)))) /\
  (forall content' filename' os' result',
      observed content' os' = inr result' ->
      (returncode result' =? 0)%Z = (returncode result =? 0)%Z ->
      stdout result' ++ stderr result' = stdout result ++ stderr result ->
      returned content' filename' os' = returned content filename os).
Proof.
  intros Hobs. rewrite returned_observed, Hobs. repeat split.
  - intros Hrc. rewrite report_cases, Hrc. reflexivity.
  - intros Hrc. rewrite report_cases.
    apply Z.eqb_neq in Hrc. rewrite Hrc. reflexivity.
  - intros content' filename' os' result' Hobs' Hrc Hout.
    rewrite returned_observed, Hobs'. f_equal.
    rewrite !report_cases, Hrc. unfold output_lines. rewrite Hout.
    reflexivity.
Qed.

Lemma exit_status_two_way_witness :
  observed (lit "x") (os_giving (inr script_missing)) = inr script_missing /\
  returned (lit "x") (lit "content.md") (os_giving (inr script_missing))
  = inr (findings_report []).
Proof.
  split; [reflexivity |].
  refine (proj1 (proj2 (exit_status_two_way (lit "x") (lit "content.md")
                          (os_giving (inr script_missing)) script_missing
                          eq_refl)) _).
  discriminate.
Defined.

(** A failed launch, which leaves no exit status, is not a result at all:
    the exception reaches the caller. *)
Lemma launch_failure_raises (content filename : str) (os : OS) (e : exn) :
  observed content os = inl e -> returned content filename os = inl e.
Proof. intros Hobs. rewrite returned_observed, Hobs. reflexivity. Qed.

(** C6.  The filename takes no part in the invocation: on the same
    system two filenames give the same result and leave the same files,
    and any two invocations on the same content that observe the same
    subprocess outcome return the same result, whatever the filenames. *)
Theorem filename_ignored
    (content filename1 filename2 : str) (os1 os2 : OS) :
  observed content os1 = observed content os2 ->
  returned content filename1 os1 = returned content filename2 os2 /\
  validate_content_tool content filename1 os1
  = validate_content_tool content filename2 os1.
Proof.
  intros Hobs. split; [| reflexivity].
  rewrite !returned_observed, Hobs. reflexivity.
Qed.

Lemma filename_ignored_witness :
  observed (lit "TODO: write this") toy_os
  = observed (lit "TODO: write this")
      (os_giving (observed (lit "TODO: write this") toy_os)) /\
  returned (lit "TODO: write this") (lit "content.md") toy_os
  = returned (lit "TODO: write this") (lit "README.md")
      (os_giving (observed (lit "TODO: write this") toy_os)).
Proof.
  split; [reflexivity |].
  exact (proj1 (filename_ignored (lit "TODO: write this")
                  (lit "content.md") (lit "README.md") toy_os
                  (os_giving (observed (lit "TODO: write this") toy_os))
                  eq_refl)).
Defined.

(** C8.  Two invocations whose subprocesses end with the same exit
    status, the same stdout and the same stderr return the same result:
    the same status, the same issues field by field, the same message. *)
Theorem same_outcome_same_result
    (content1 filename1 : str) (os1 : OS) (result1 : CompletedProcess)
    (content2 filename2 : str) (os2 : OS) (result2 : CompletedProcess) :
  observed content1 os1 = inr result1 ->
  observed content2 os2 = inr result2 ->
  returncode result1 = returncode result2 ->
  stdout result1 = stdout result2 ->
  stderr result1 = stderr result2 ->
  exists r,
    returned content1 filename1 os1 = inr r /\
    returned content2 filename2 os2 = inr r.
Proof.
  intros Hobs1 Hobs2 Hrc Hout Herr.
  exists (report result1).
  rewrite !returned_observed, Hobs1, Hobs2.
  split; [reflexivity |].
  destruct result1 as [rc1 out1 err1], result2 as [rc2 out2 err2].
  simpl in Hrc, Hout, Herr. subst. reflexivity.
Qed.

Lemma same_outcome_same_result_witness :
  exists r,
    returned (lit "TODO: write this") (lit "content.md") toy_os = inr r /\
    returned (lit "other text") (lit "notes.md")
      (os_giving (observed (lit "TODO: write this") toy_os)) = inr r.
Proof.
  exact (same_outcome_same_result
           (lit "TODO: write this") (lit "content.md") toy_os
           {| returncode := 1;
              stdout := orange_circle ++ lit " Placeholder text found: TODO"
                        ++ newline;
              stderr := [] |}
           (lit "other text") (lit "notes.md")
           (os_giving (observed (lit "TODO: write this") toy_os))
           {| returncode := 1;
              stdout := orange_circle ++ lit " Placeholder text found: TODO"
                        ++ newline;
              stderr := [] |}
           eq_refl eq_refl eq_refl eq_refl eq_refl).
Defined.

End Outcomes.

(** ** More about [strip] and [split] *)

Section Trimming.

Lemma lstrip_parts (s : str) :
  exists pre, s = pre ++ lstrip s /\ Forall (fun c => isspace c = true) pre.
Proof.
  induction s as [|c s [pre [Hs Hpre]]]; simpl.
  - exists []. split; [reflexivity | constructor].
  - destruct (isspace c) eqn:Hc.
    + exists (c :: pre). split; [simpl; f_equal; exact Hs |].
      constructor; assumption.
    + exists []. split; [reflexivity | constructor].
Qed.

Lemma lstrip_head (s : str) (c : N) :
  hd_error (lstrip s) = Some c -> isspace c = false.
Proof.
  induction s as [|x s IH]; simpl; [discriminate |].
  destruct (isspace x) eqn:Hx; [exact IH |].
  simpl. intros E. injection E as <-. exact Hx.
Qed.

Lemma lstrip_fixed (s : str) :
  (forall c, hd_error s = Some c -> isspace c = false) -> lstrip s = s.
Proof.
  destruct s as [|x s]; simpl; [reflexivity |].
  intros H. rewrite (H x eq_refl). reflexivity.
Qed.

Lemma rstrip_parts (s : str) :
  exists post,
    s = rstrip s ++ post /\ Forall (fun c => isspace c = true) post.
Proof.
  unfold rstrip. destruct (lstrip_parts (rev s)) as [pre [Hs Hpre]].
  exists (rev pre). split; [| apply Forall_rev; assumption].
  rewrite <- rev_app_distr, <- Hs, rev_involutive. reflexivity.
Qed.

Lemma rstrip_last (s : str) (c : N) :
  hd_error (rev (rstrip s)) = Some c -> isspace c = false.
Proof.
  unfold rstrip. rewrite rev_involutive. apply lstrip_head.
Qed.

Lemma rstrip_fixed (s : str) :
  (forall c, hd_error (rev s) = Some c -> isspace c = false) ->
  rstrip s = s.
Proof.
  intros H. unfold rstrip. rewrite (lstrip_fixed (rev s) H).
  apply rev_involutive.
Qed.

Lemma strip_parts (s : str) :
  exists pre post,
    s = pre ++ strip s ++ post /\
    Forall (fun c => isspace c = true) pre /\
    Forall (fun c => isspace c = true) post.
Proof.
  unfold strip. destruct (lstrip_parts s) as [pre [Hs Hpre]].
  destruct (rstrip_parts (lstrip s)) as [post [Ht Hpost]].
  exists pre, post. split; [| split; assumption].
  rewrite <- Ht. exact Hs.
Qed.

Lemma strip_head (s : str) (c : N) :
  hd_error (strip s) = Some c -> isspace c = false.
Proof.
  unfold strip. destruct (rstrip_parts (lstrip s)) as [post [Ht _]].
  intros Hhd. apply (lstrip_head s). rewrite Ht.
  destruct (rstrip (lstrip s)); [discriminate | exact Hhd].
Qed.

Lemma strip_last (s : str) (c : N) :
  hd_error (rev (strip s)) = Some c -> isspace c = false.
Proof. unfold strip. apply rstrip_last. Qed.

Lemma strip_fixed (s : str) :
  (forall c, hd_error s = Some c -> isspace c = false) ->
  (forall c, hd_error (rev s) = Some c -> isspace c = false) ->
  strip s = s.
Proof.
  intros Hhd Hlast. unfold strip.
  rewrite (lstrip_fixed s Hhd). apply rstrip_fixed; assumption.
Qed.

Lemma strip_strip (s : str) : strip (strip s) = strip s.
Proof. apply strip_fixed; [apply strip_head | apply strip_last]. Qed.

Lemma filter_spaces (f : N -> bool) (l : str) :
  (forall c, f c = true -> isspace c = false) ->
  Forall (fun c => isspace c = true) l -> filter f l = [].
Proof.
  intros Hf. induction 1 as [|c l Hc Hl IH]; simpl; [reflexivity |].
  destruct (f c) eqn:E; [| exact IH].
  apply Hf in E. congruence.
Qed.

(** Stripping loses white space only. *)
Lemma filter_strip (f : N -> bool) (s : str) :
  (forall c, f c = true -> isspace c = false) ->
  filter f (strip s) = filter f s.
Proof.
  intros Hf. destruct (strip_parts s) as [pre [post [Hs [Hpre Hpost]]]].
  rewrite Hs at 2. rewrite !filter_app.
  rewrite (filter_spaces f pre Hf Hpre), (filter_spaces f post Hf Hpost).
  rewrite app_nil_r. reflexivity.
Qed.

(** The characters of the fields are the characters of the string other
    than the separator. *)
Lemma split_char_field_In (c : N) (s field : str) (x : N) :
  In field (split [c] s) -> In x field -> In x s.
Proof.
  unfold split. revert field.
  induction s as [|y s IH]; intros field; simpl.
  - intros [<- | []] [].
  - rewrite andb_true_r. destruct (N.eqb c y) eqn:E.
    + intros [<- | H] Hx; [destruct Hx |].
      right. apply (IH field); assumption.
    + destruct (split_from [c] 0 s) as [|f fs] eqn:Es.
      * intros [<- | []] [<- | []]. left; reflexivity.
      * intros [<- | H] Hx.
        -- destruct Hx as [<- | Hx]; [left; reflexivity |].
           right. apply (IH f); [left; reflexivity | assumption].
        -- right. apply (IH field); [right; assumption | assumption].
Qed.

Lemma split_char_In_field (c : N) (s : str) (x : N) :
  In x s -> x <> c ->
  exists field, In field (split [c] s) /\ In x field.
Proof.
  unfold split. intros Hin Hneq.
  induction s as [|y s IH]; [destruct Hin |].
  simpl. rewrite andb_true_r. destruct (N.eqb c y) eqn:E.
  - apply N.eqb_eq in E. subst y.
    destruct Hin as [-> | Hin]; [contradiction Hneq; reflexivity |].
    destruct (IH Hin) as [field [Hf Hx]].
    exists field. split; [right; assumption | assumption].
  - destruct (split_from [c] 0 s) as [|f fs] eqn:Es.
    + destruct Hin as [-> | Hin].
      * exists [x]. split; left; reflexivity.
      * destruct (IH Hin) as [field [[] _]].
    + destruct Hin as [-> | Hin].
      * exists (x :: f). split; left; reflexivity.
      * destruct (IH Hin) as [field [[<- | Hf] Hx]].
        -- exists (y :: f). split; [left; reflexivity | right; assumption].
        -- exists field. split; [right; assumption | assumption].
Qed.

(** One field more than there are separators. *)
Lemma split_char_length (c : N) (s : str) :
  length (split [c] s) = S (count_occ N.eq_dec s c).
Proof.
  unfold split. induction s as [|y s IH]; [reflexivity |].
  simpl split_from. rewrite andb_true_r.
  simpl count_occ. destruct (N.eq_dec y c) as [-> | Hneq].
  - rewrite N.eqb_refl. simpl. rewrite IH. reflexivity.
  - assert (E : N.eqb c y = false) by (apply N.eqb_neq; congruence).
    rewrite E. destruct (split_from [c] 0 s) as [|f fs] eqn:Es;
      [discriminate IH |].
    simpl in *. exact IH.
Qed.

(** Splitting a concatenation: the last field of the first part and the
    first field of the second are one field. *)
Lemma split_char_app (c : N) (a b : str) :
  split [c] (a ++ b)
  = removelast (split [c] a)
    ++ (last (split [c] a) [] ++ hd [] (split [c] b))
       :: tl (split [c] b).
Proof.
  unfold split. induction a as [|y a IH].
  - simpl. pose proof (split_char_nonempty c b) as Hne. unfold split in Hne.
    destruct (split_from [c] 0 b); [congruence | reflexivity].
  - pose proof (split_char_nonempty c a) as Hne. unfold split in Hne.
    change ((y :: a) ++ b) with (y :: (a ++ b)).
    simpl split_from. rewrite andb_true_r.
    destruct (N.eqb c y).
    + rewrite IH.
      destruct (split_from [c] 0 a) as [|f fs]; [congruence |].
      reflexivity.
    + rewrite IH.
      destruct (split_from [c] 0 a) as [|f fs]; [congruence |].
      destruct fs as [|g fs]; reflexivity.
Qed.

End Trimming.

(** ** Further properties of the tool *)

Section Counting.

Lemma has_marker_chars (line : str) :
  has_marker line = existsb is_marker_char line.
Proof.
  unfold has_marker, red_circle, yellow_circle, blue_circle, orange_circle.
  rewrite !contains_char. unfold is_marker_char.
  induction line as [|c line IH]; [reflexivity |].
  cbn [existsb]. rewrite <- IH.
  destruct (N.eqb 0x1F534 c), (N.eqb 0x1F7E1 c), (N.eqb 0x1F535 c),
    (N.eqb 0x1F7E0 c),
    (existsb (N.eqb 0x1F534) line), (existsb (N.eqb 0x1F7E1) line),
    (existsb (N.eqb 0x1F535) line), (existsb (N.eqb 0x1F7E0) line);
    reflexivity.
Qed.

Lemma has_marker_In (line : str) :
  has_marker line = true
  <-> exists c, In c line /\ is_marker_char c = true.
Proof. rewrite has_marker_chars. apply existsb_exists. Qed.

Lemma filter_length (A : Type) (f : A -> bool) (l : list A) :
  length (filter f l) <= length l.
Proof.
  induction l as [|x l IH]; simpl; [lia |].
  destruct (f x); simpl; lia.
Qed.

Lemma enumerate_from_length (A : Type) (l : list A) (k : nat) :
  length (enumerate_from k l) = length l.
Proof.
  revert k; induction l as [|x l IH]; intros k; simpl;
    [reflexivity | rewrite IH; reflexivity].
Qed.

(** X2.  After a non-zero exit the issues list is empty exactly when none
    of the four marker glyphs occurs anywhere in stdout or stderr. *)
Theorem no_issue_iff_no_marker (result : CompletedProcess) :
  returncode result <> 0%Z ->
  (issues_of (report result) = []
   <-> forall c, In c (stdout result ++ stderr result) ->
                 is_marker_char c = false).
Proof.
  intros Hrc. split.
  - intros Hnone c Hin.
    destruct (is_marker_char c) eqn:Hc; [| reflexivity].
    assert (Hnl : c <> 10%N) by (intros ->; discriminate Hc).
    destruct (split_char_In_field 10%N _ c Hin Hnl) as [line [Hline Hcl]].
    apply In_nth_error in Hline. destruct Hline as [i Hi].
    assert (Hmark : In (i, line) (marker_lines (output_lines result))).
    { apply marker_lines_In. split; [exact Hi |].
      apply has_marker_In. exists c. split; assumption. }
    apply (marker_line_reported result i line Hrc) in Hmark.
    rewrite Hnone in Hmark. destruct Hmark.
  - intros Hclean. rewrite issues_of_report.
    apply Z.eqb_neq in Hrc. rewrite Hrc.
    destruct (marker_lines (output_lines result)) as [|[i line] rest] eqn:E;
      [reflexivity |].
    assert (Hin : In (i, line) (marker_lines (output_lines result)))
      by (rewrite E; left; reflexivity).
    apply marker_lines_In in Hin. destruct Hin as [Hi Hmark].
    apply has_marker_In in Hmark. destruct Hmark as [c [Hcl Hc]].
    apply nth_error_In in Hi.
    rewrite (Hclean c (split_char_field_In 10%N _ line c Hi Hcl)) in Hc.
    discriminate.
Qed.

Lemma no_issue_iff_no_marker_witness :
  returncode script_missing <> 0%Z /\
  (issues_of (report script_missing) = []
   <-> forall c, In c (stdout script_missing ++ stderr script_missing) ->
                 is_marker_char c = false).
Proof.
  assert (Hrc : returncode script_missing <> 0%Z) by discriminate.
  split; [exact Hrc |].
  exact (no_issue_iff_no_marker script_missing Hrc).
Defined.

(** X3.  A result never has more issues than the output has lines, that
    is, one more than the number of newline characters in stdout and
    stderr together; after a non-zero exit the number in the message is
    the number of marker lines. *)
Theorem issue_count_bound (result : CompletedProcess) :
  length (issues_of (report result))
  <= S (count_occ N.eq_dec (stdout result ++ stderr result) 10%N) /\
  (returncode result <> 0%Z ->
   get (lit "message") (report result)
   = Some (VStr (cross_mark ++ lit " Found "
                 ++ str_of_nat
                      (length (marker_lines (output_lines result)))
                 ++ lit " validation issue(s)"))).
Proof.
  split.
  - rewrite issues_of_report.
    destruct (returncode result =? 0)%Z; [simpl; lia |].
    rewrite length_map. unfold marker_lines.
    eapply Nat.le_trans; [apply filter_length |].
    unfold enumerate. rewrite enumerate_from_length.
    unfold output_lines, newline. rewrite split_char_length. lia.
  - intros Hrc. rewrite report_cases.
    apply Z.eqb_neq in Hrc. rewrite Hrc.
    rewrite extract_issues_marker_lines. cbn [get findings_report].
    rewrite length_map. reflexivity.
Qed.

End Counting.

Section Texts.

Lemma message_of_In (line : str) (c : N) :
  In c (message_of line) -> In c line /\ is_marker_char c = false.
Proof.
  rewrite message_of_filter. intros Hin.
  apply strip_incl in Hin. apply filter_In in Hin.
  destruct Hin as [Hin Hkeep]. split; [exact Hin |].
  destruct (is_marker_char c); [discriminate | reflexivity].
Qed.

(** X4.  The message of every reported issue is one trimmed line: it
    neither starts nor ends with a white-space character and holds no
    newline. *)
Theorem message_trimmed (result : CompletedProcess) (issue : value) :
  In issue (issues_of (report result)) ->
  exists msg,
    get (lit "message") issue = Some (VStr msg) /\
    (forall c, hd_error msg = Some c -> isspace c = false) /\
    (forall c, hd_error (rev msg) = Some c -> isspace c = false) /\
    ~ In 10%N msg.
Proof.
  intros Hin. apply reported_issue_origin in Hin.
  destruct Hin as [_ [i [line [Hmark ->]]]].
  exists (message_of line). split; [reflexivity |].
  split; [intros c; apply strip_head |].
  split; [intros c; apply strip_last |].
  intros Hnl. apply message_of_In in Hnl. destruct Hnl as [Hnl _].
  apply marker_lines_In in Hmark. destruct Hmark as [Hi _].
  apply nth_error_In in Hi.
  exact (split_char_fields 10%N _ line Hi Hnl).
Qed.

Lemma message_trimmed_witness :
  In (issue_of (output_lines marked_suggestion) 1
        (light_bulb ++ lit " receive " ++ yellow_circle ++ lit " twice"))
     (issues_of (report marked_suggestion)) /\
  exists msg,
    get (lit "message")
      (issue_of (output_lines marked_suggestion) 1
         (light_bulb ++ lit " receive " ++ yellow_circle ++ lit " twice"))
    = Some (VStr msg) /\
    (forall c, hd_error msg = Some c -> isspace c = false) /\
    (forall c, hd_error (rev msg) = Some c -> isspace c = false) /\
    ~ In 10%N msg.
Proof.
  assert (Hin : In (issue_of (output_lines marked_suggestion) 1
                      (light_bulb ++ lit " receive " ++ yellow_circle
                       ++ lit " twice"))
                   (issues_of (report marked_suggestion)))
    by (right; left; reflexivity).
  split; [exact Hin |].
  exact (message_trimmed marked_suggestion _ Hin).
Defined.

(** X5.  A suggestion, when an issue has one, is one trimmed line without
    the light bulb: it neither starts nor ends with a white-space
    character and holds neither a newline nor the light bulb. *)
Theorem suggestion_trimmed
    (result : CompletedProcess) (issue : value) (text : str) :
  In issue (issues_of (report result)) ->
  get (lit "suggestion") issue = Some (VStr text) ->
  (forall c, hd_error text = Some c -> isspace c = false) /\
  (forall c, hd_error (rev text) = Some c -> isspace c = false) /\
  ~ In 10%N text /\
  contains light_bulb text = false.
Proof.
  intros Hin Hget. apply reported_issue_origin in Hin.
  destruct Hin as [_ [i [line [_ ->]]]].
  rewrite issue_suggestion, suggestion_of_next in Hget.
  destruct (nth_error (output_lines result) (i + 1)) as [next|] eqn:E;
    [| discriminate].
  destruct (contains light_bulb next); [| discriminate].
  unfold light_bulb in Hget. rewrite replace_char_empty in Hget.
  injection Hget as <-.
  split; [intros c; apply strip_head |].
  split; [intros c; apply strip_last |].
  unfold light_bulb. split.
  - intros Hnl. apply strip_incl in Hnl. apply filter_In in Hnl.
    destruct Hnl as [Hnl _]. apply nth_error_In in E.
    exact (split_char_fields 10%N _ next E Hnl).
  - apply contains_char_false. intros Hb.
    apply strip_incl in Hb. apply filter_In in Hb.
    destruct Hb as [_ Hb]. vm_compute in Hb. discriminate.
Qed.

Lemma suggestion_trimmed_witness :
  In (issue_of (output_lines marked_suggestion) 0
        (red_circle ++ lit " Spelling: recieve"))
     (issues_of (report marked_suggestion)) /\
  get (lit "suggestion")
    (issue_of (output_lines marked_suggestion) 0
       (red_circle ++ lit " Spelling: recieve"))
  = Some (VStr (lit "receive " ++ yellow_circle ++ lit " twice")) /\
  contains light_bulb (lit "receive " ++ yellow_circle ++ lit " twice")
  = false.
Proof.
  assert (Hin : In (issue_of (output_lines marked_suggestion) 0
                      (red_circle ++ lit " Spelling: recieve"))
                   (issues_of (report marked_suggestion)))
    by (left; reflexivity).
  split; [exact Hin |]. split; [reflexivity |].
  exact (proj2 (proj2 (proj2
           (suggestion_trimmed marked_suggestion _
              (lit "receive " ++ yellow_circle ++ lit " twice")
              Hin eq_refl)))).
Defined.

(** X6.  Between its first and last non-blank characters the message is
    the line verbatim except for the four marker glyphs: the line without
    those glyphs is the message with only white space before and after
    it.  The light bulb in particular is not taken out of a message. *)
Theorem message_keeps_text (lines : list str) (i : nat) (line : str) :
  exists msg pre post,
    get (lit "message") (issue_of lines i line) = Some (VStr msg) /\
    filter (fun c => negb (is_marker_char c)) line = pre ++ msg ++ post /\
    Forall (fun c => isspace c = true) pre /\
    Forall (fun c => isspace c = true) post /\
    (contains light_bulb line = true -> contains light_bulb msg = true).
Proof.
  destruct (strip_parts (filter (fun c => negb (is_marker_char c)) line))
    as [pre [post [Hs [Hpre Hpost]]]].
  exists (message_of line), pre, post.
  split; [reflexivity |]. rewrite message_of_filter.
  split; [exact Hs |]. split; [exact Hpre |]. split; [exact Hpost |].
  unfold light_bulb. rewrite !contains_char_In. intros Hb.
  assert (Hkept : In 0x1F4A1%N
                    (filter (fun c => negb (is_marker_char c)) line))
    by (apply filter_In; split; [exact Hb | reflexivity]).
  rewrite Hs in Hkept. apply in_app_or in Hkept.
  destruct Hkept as [Hp | Hkept].
  - rewrite Forall_forall in Hpre. apply Hpre in Hp. discriminate.
  - apply in_app_or in Hkept. destruct Hkept as [Hm | Hp]; [exact Hm |].
    rewrite Forall_forall in Hpost. apply Hpost in Hp. discriminate.
Qed.

(** X7.  Parsing a message again gives the same message. *)
Theorem message_of_idempotent (line : str) :
  message_of (message_of line) = message_of line.
Proof.
  rewrite (message_of_filter (message_of line)).
  rewrite forallb_filter_id.
  - unfold message_of. apply strip_strip.
  - apply forallb_forall. intros c Hc.
    apply message_of_In in Hc. destruct Hc as [_ Hc].
    rewrite Hc. reflexivity.
Qed.

End Texts.

Section Lines.

Lemma severity_names_marker (line : str) :
  has_marker line = true ->
  exists m,
    contains (glyph m) line = true /\ severity_of line = severity_label m.
Proof.
  unfold has_marker, severity_of.
  destruct (contains red_circle line) eqn:Hr;
    [intros _; exists Red; split; [exact Hr | reflexivity] |].
  destruct (contains yellow_circle line) eqn:Hy;
    [intros _; exists Yellow; split; [exact Hy | reflexivity] |].
  destruct (contains blue_circle line) eqn:Hb;
    [intros _; exists Blue; split; [exact Hb | reflexivity] |].
  destruct (contains orange_circle line) eqn:Ho;
    [intros _; exists Orange; split; [exact Ho | reflexivity] |].
  discriminate.
Qed.

(** X8.  The severity of every reported issue is the label of a marker
    that its line really carries: the fall-back "low" of the conditional
    expression is only reached on a line with the orange circle. *)
Theorem severity_names_a_marker_on_the_line
    (result : CompletedProcess) (issue : value) :
  In issue (issues_of (report result)) ->
  exists i line m,
    nth_error (output_lines result) i = Some line /\
    issue = issue_of (output_lines result) i line /\
    contains (glyph m) line = true /\
    get (lit "severity") issue = Some (VStr (severity_label m)).
Proof.
  intros Hin. apply reported_issue_origin in Hin.
  destruct Hin as [_ [i [line [Hmark ->]]]].
  apply marker_lines_In in Hmark. destruct Hmark as [Hi Hmark].
  destruct (severity_names_marker line Hmark) as [m [Hm Hsev]].
  exists i, line, m. split; [exact Hi |]. split; [reflexivity |].
  split; [exact Hm |]. cbn [get issue_of assoc].
  simpl. rewrite Hsev. reflexivity.
Qed.

Lemma severity_names_a_marker_on_the_line_witness :
  In (issue_of (output_lines two_findings) 2
        (orange_circle ++ lit " Placeholder: TODO"))
     (issues_of (report two_findings)) /\
  exists i line m,
    nth_error (output_lines two_findings) i = Some line /\
    issue_of (output_lines two_findings) 2
      (orange_circle ++ lit " Placeholder: TODO")
    = issue_of (output_lines two_findings) i line /\
    contains (glyph m) line = true /\
    get (lit "severity")
      (issue_of (output_lines two_findings) 2
         (orange_circle ++ lit " Placeholder: TODO"))
    = Some (VStr (severity_label m)).
Proof.
  assert (Hin : In (issue_of (output_lines two_findings) 2
                      (orange_circle ++ lit " Placeholder: TODO"))
                   (issues_of (report two_findings)))
    by (right; left; reflexivity).
  split; [exact Hin |].
  exact (severity_names_a_marker_on_the_line two_findings _ Hin).
Defined.

(** X9.  A line that follows a marker line and carries both the light
    bulb and a severity marker is used twice: as the suggestion of the
    issue above it, severity glyph included, and as an issue of its own,
    with the light bulb in its message. *)
Theorem marked_suggestion_used_twice
    (result : CompletedProcess) (i : nat) (line next : str) :
  returncode result <> 0%Z ->
  nth_error (output_lines result) i = Some line ->
  has_marker line = true ->
  nth_error (output_lines result) (i + 1) = Some next ->
  contains light_bulb next = true ->
  has_marker next = true ->
  let lines := output_lines result in
  In (issue_of lines i line) (issues_of (report result)) /\
  get (lit "suggestion") (issue_of lines i line)
  = Some (VStr (strip (replace light_bulb [] next))) /\
  In (issue_of lines (i + 1) next) (issues_of (report result)) /\
  (exists msg,
      get (lit "message") (issue_of lines (i + 1) next) = Some (VStr msg) /\
      contains light_bulb msg = true) /\
  has_marker (replace light_bulb [] next) = true.
Proof.
  intros Hrc Hi Hmark Hnext Hbulb Hmark' lines.
  split.
  { apply marker_line_reported; [exact Hrc |].
    apply marker_lines_In. split; assumption. }
  split.
  { rewrite issue_suggestion, suggestion_of_next. fold lines in Hnext.
    rewrite Hnext, Hbulb. reflexivity. }
  split.
  { apply marker_line_reported; [exact Hrc |].
    apply marker_lines_In. split; assumption. }
  split.
  { destruct (message_keeps_text lines (i + 1) next)
      as [msg [pre [post [Hmsg [_ [_ [_ Hkeep]]]]]]].
    exists msg. split; [exact Hmsg | apply Hkeep; exact Hbulb]. }
  apply has_marker_In in Hmark'. destruct Hmark' as [c [Hc Hm]].
  apply has_marker_In. exists c. split; [| exact Hm].
  unfold light_bulb. rewrite replace_char_empty. apply filter_In.
  split; [exact Hc |].
  destruct (N.eqb 0x1F4A1 c) eqn:E; [| reflexivity].
  apply N.eqb_eq in E. subst c. discriminate Hm.
Qed.

Lemma marked_suggestion_used_twice_witness :
  length (issues_of (report marked_suggestion)) = 2 /\
  get (lit "suggestion")
    (issue_of (output_lines marked_suggestion) 0
       (red_circle ++ lit " Spelling: recieve"))
  = Some (VStr (lit "receive " ++ yellow_circle ++ lit " twice")) /\
  In (issue_of (output_lines marked_suggestion) (0 + 1)
        (light_bulb ++ lit " receive " ++ yellow_circle ++ lit " twice"))
     (issues_of (report marked_suggestion)).
Proof.
  split; [reflexivity |].
  destruct (marked_suggestion_used_twice marked_suggestion 0
              (red_circle ++ lit " Spelling: recieve")
              (light_bulb ++ lit " receive " ++ yellow_circle
               ++ lit " twice"))
    as [_ [Hsugg [Hissue _]]];
    try reflexivity; try discriminate.
  split; [exact Hsugg | exact Hissue].
Defined.

(** X10.  stdout and stderr are joined with nothing between them: the
    lines of the output are the lines of stdout but the last, then the
    last line of stdout and the first of stderr as one line, then the
    other lines of stderr. *)
Theorem streams_joined_without_separator (result : CompletedProcess) :
  output_lines result
  = removelast (split newline (stdout result))
    ++ (last (split newline (stdout result)) []
        ++ hd [] (split newline (stderr result)))
       :: tl (split newline (stderr result)).
Proof. unfold output_lines, newline. apply split_char_app. Qed.

End Lines.
